(** * touchosc2midi: the TouchOSC <-> MIDI bridge

    A shallow embedding of [touchosc2midi.py] and of the parts of the
    libraries it calls ([mido], [liblo], [netaddr]) that decide what its
    functions return, followed by the properties of the wire codec, of the
    two relay callbacks and of the start-up peer resolution; the last part
    holds further properties of the same functions and of how they
    compose.

    Conventions.
    - A Python [int] is a [Z]; a byte is a [Z] that the code expects in
      [0 .. 255], and the places where the libraries check that range are
      written out.
    - A Python exception is a value of [exn]; a function that can raise
      returns a [result].
    - A callback is a computation in the state-and-exception monad [M]: the
      state is the log of what has been handed to the outside world (the
      MIDI output port, or the UDP socket). *)

From Stdlib Require Import ZArith List String Ascii Bool Lia QArith.
From Stdlib Require Import DecimalString DecimalZ DecimalPos.
Import ListNotations.

Local Open Scope string_scope.
Local Open Scope list_scope.
Local Open Scope Z_scope.

(** ** Exceptions and results *)

Inductive exn : Type :=
| IndexError
| TypeError
| ValueError
| AssertionError.

Inductive result (A : Type) : Type :=
| Ok (a : A)
| Raise (e : exn).

Arguments Ok {A} a.
Arguments Raise {A} e.

Definition rbind {A B : Type} (r : result A) (k : A -> result B) : result B :=
  match r with
  | Ok a => k a
  | Raise e => Raise e
  end.

(** ** The state-and-exception monad of the callbacks *)

Definition M (S A : Type) : Type := S -> result A * S.

Definition ret {S A : Type} (a : A) : M S A := fun s => (Ok a, s).

Definition bind {S A B : Type} (c : M S A) (k : A -> M S B) : M S B :=
  fun s =>
    match c s with
    | (Ok a, s') => k a s'
    | (Raise e, s') => (Raise e, s')
    end.

Definition raise {S A : Type} (e : exn) : M S A := fun s => (Raise e, s).

Definition lift {S A : Type} (r : result A) : M S A := fun s => (r, s).

(** [emit x] appends [x] to the log. *)
Definition emit {S : Type} (x : S) : M (list S) unit :=
  fun s => (Ok tt, s ++ [x]).

(** Python's [assert]. *)
Definition assert {S : Type} (b : bool) : M S unit :=
  if b then ret tt else raise AssertionError.

Declare Scope monad_scope.
Delimit Scope monad_scope with monad.
Notation "x <- c ;; k" := (bind c (fun x => k))
  (at level 61, c at next level, right associativity) : monad_scope.
Notation "c ;;; k" := (bind c (fun _ => k))
  (at level 61, right associativity) : monad_scope.

(** ** Python sequences *)

(** [l[i]] for [i >= 0]: raises [IndexError] out of range. *)
Definition index {A : Type} (l : list A) (i : nat) : result A :=
  match nth_error l i with
  | Some x => Ok x
  | None => Raise IndexError
  end.

(** [str(n)] and ["{}".format(n)] for an [int]. *)
Definition str (n : Z) : string := NilZero.string_of_int (Z.to_int n).

(** ** mido: messages and the byte parser *)

(** Modelled from the spec: the [mido] library, whose [Message] values,
    [Message.bytes], [mido.parse] and [port.send] the bridge calls, is not
    among the sources.  The spec describes an instrument event as a type, a
    channel and data bytes, carried on the wire as a status byte followed by
    data bytes; the table of message types and the byte parser below are
    those of the MIDI 1.0 byte format, which is what [mido] implements. *)

Module Mido.

Inductive msg_type : Type :=
| note_off | note_on | polytouch | control_change
| program_change | aftertouch | pitchwheel
| sysex | quarter_frame | songpos | song_select | tune_request
| clock | start | continue | stop | active_sensing | reset.

Definition msg_type_eqb (a b : msg_type) : bool :=
  match a, b with
  | note_off, note_off | note_on, note_on | polytouch, polytouch
  | control_change, control_change | program_change, program_change
  | aftertouch, aftertouch | pitchwheel, pitchwheel | sysex, sysex
  | quarter_frame, quarter_frame | songpos, songpos
  | song_select, song_select | tune_request, tune_request
  | clock, clock | start, start | continue, continue | stop, stop
  | active_sensing, active_sensing | reset, reset => true
  | _, _ => false
  end.

(** The value of [message.type]. *)
Definition type_name (t : msg_type) : string :=
  match t with
  | note_off => "note_off"
  | note_on => "note_on"
  | polytouch => "polytouch"
  | control_change => "control_change"
  | program_change => "program_change"
  | aftertouch => "aftertouch"
  | pitchwheel => "pitchwheel"
  | sysex => "sysex"
  | quarter_frame => "quarter_frame"
  | songpos => "songpos"
  | song_select => "song_select"
  | tune_request => "tune_request"
  | clock => "clock"
  | start => "start"
  | continue => "continue"
  | stop => "stop"
  | active_sensing => "active_sensing"
  | reset => "reset"
  end.

(** One row of mido's table of messages: the status byte, the type and
    the length in bytes of the whole message ([None] for [sysex], whose
    length is not fixed). *)
Record MessageSpec : Type := mkSpec {
  status_byte : Z;
  spec_type : msg_type;
  spec_length : option nat
}.

Definition specs : list MessageSpec :=
  [ mkSpec 0x80 note_off (Some 3%nat);
    mkSpec 0x90 note_on (Some 3%nat);
    mkSpec 0xa0 polytouch (Some 3%nat);
    mkSpec 0xb0 control_change (Some 3%nat);
    mkSpec 0xc0 program_change (Some 2%nat);
    mkSpec 0xd0 aftertouch (Some 2%nat);
    mkSpec 0xe0 pitchwheel (Some 3%nat);
    mkSpec 0xf0 sysex None;
    mkSpec 0xf1 quarter_frame (Some 2%nat);
    mkSpec 0xf2 songpos (Some 3%nat);
    mkSpec 0xf3 song_select (Some 2%nat);
    mkSpec 0xf6 tune_request (Some 1%nat);
    mkSpec 0xf8 clock (Some 1%nat);
    mkSpec 0xfa start (Some 1%nat);
    mkSpec 0xfb continue (Some 1%nat);
    mkSpec 0xfc stop (Some 1%nat);
    mkSpec 0xfe active_sensing (Some 1%nat);
    mkSpec 0xff reset (Some 1%nat) ].

(** A channel message keeps its channel in the low nibble of the status
    byte, so it is looked up by the high nibble. *)
Definition get_spec (b : Z) : option MessageSpec :=
  let key := if b <? 0xf0 then Z.land b 0xf0 else b in
  find (fun s => status_byte s =? key) specs.

Definition spec_of_type (t : msg_type) : option MessageSpec :=
  find (fun s => msg_type_eqb (spec_type s) t) specs.

Definition status_of_type (t : msg_type) : Z :=
  match spec_of_type t with
  | Some s => status_byte s
  | None => 0
  end.

(** A message: its type, its channel (0 for a system message, which has
    none) and its data bytes in wire order. *)
Record Message : Type := mkMessage {
  type : msg_type;
  channel : Z;
  data : list Z
}.

(** [message.bytes()]. *)
Definition bytes (m : Message) : list Z :=
  let sb := status_of_type (type m) in
  if sb <? 0xf0 then Z.lor sb (channel m) :: data m
  else if msg_type_eqb (type m) sysex then sb :: data m ++ [0xf7]
  else sb :: data m.

(** The message that a complete run of bytes [bs] of row [spec] stands
    for. *)
Definition build_message (spec : MessageSpec) (bs : list Z) : Message :=
  match bs with
  | [] => mkMessage (spec_type spec) 0 []
  | st :: ds =>
      mkMessage (spec_type spec)
                (if st <? 0xf0 then Z.land st 0x0f else 0)
                ds
  end.

(** The parser: the row and the bytes of the message being read, and the
    queue of the messages read so far. *)
Record Parser : Type := mkParser {
  p_spec : option MessageSpec;
  p_bytes : list Z;
  p_messages : list Message
}.

Definition new_parser : Parser := mkParser None [] [].

(** Queue a finished message and start afresh. *)
Definition deliver (p : Parser) (m : Message) : Parser :=
  mkParser None [] (p_messages p ++ [m]).

Definition handle_status_byte (p : Parser) (b : Z) : Parser :=
  if 0xf8 <=? b then
    (* A real-time byte is a message of its own and may come in the
       middle of another message, which it leaves as it is. *)
    match get_spec b with
    | Some s => mkParser (p_spec p) (p_bytes p)
                         (p_messages p ++ [build_message s [b]])
    | None => p
    end
  else if b =? 0xf7 then
    (* End of a sysex message; stray otherwise. *)
    match p_spec p with
    | Some s =>
        if msg_type_eqb (spec_type s) sysex
        then deliver p (build_message s (p_bytes p))
        else p
    | None => p
    end
  else
    match get_spec b with
    | Some s => mkParser (Some s) [b] (p_messages p)
    | None => mkParser None [] (p_messages p)
    end.

Definition handle_data_byte (p : Parser) (b : Z) : Parser :=
  match p_spec p with
  | Some _ => mkParser (p_spec p) (p_bytes p ++ [b]) (p_messages p)
  | None => p (* a data byte with no message open is dropped *)
  end.

Definition complete (p : Parser) : Parser :=
  match p_spec p with
  | Some s =>
      match spec_length s with
      | Some n =>
          if Nat.eqb (List.length (p_bytes p)) n
          then deliver p (build_message s (p_bytes p))
          else p
      | None => p
      end
  | None => p
  end.

Definition feed_byte (p : Parser) (b : Z) : result Parser :=
  if negb ((0 <=? b) && (b <=? 255)) then Raise ValueError
  else
    Ok (complete (if 0x80 <=? b
                  then handle_status_byte p b
                  else handle_data_byte p b)).

Fixpoint feed (p : Parser) (bs : list Z) : result Parser :=
  match bs with
  | [] => Ok p
  | b :: bs' => rbind (feed_byte p b) (fun p' => feed p' bs')
  end.

(** [mido.parse(data)]: the first message found in [data], [None] when
    there is none. *)
Definition parse (bs : list Z) : result (option Message) :=
  rbind (feed new_parser bs) (fun p => Ok (hd_error (p_messages p))).

(** [port.send(message)] on an output port.  The state is the log of the
    calls made to the port, each with its argument; the port refuses what
    is not a message. *)
Definition send (message : option Message) : M (list (option Message)) unit :=
  fun log =>
    match message with
    | Some _ => (Ok tt, log ++ [message])
    | None => (Raise ValueError, log ++ [message])
    end.

End Mido.

(** ** liblo: addresses, messages, sending, and the server's methods *)

(** Modelled from the spec: the [liblo] library is not among the sources.
    A message is an address path with typed arguments; the server hands a
    datagram to the methods registered for its path and its type tags.
    Addresses are compared as plain strings: the expansion of OSC wildcards
    in the address of an incoming message is left out. *)

Module Liblo.

Inductive proto : Type := UDP | TCP | UNIX.

Record Address : Type := mkAddress {
  hostname : string;
  port : Z;
  protocol : proto
}.

(** An argument with its type tag: ['m'] carries a tuple of MIDI bytes,
    ['f'] a float.  The only floats the bridge builds are [n / 128.0] for
    a byte [n], which binary floating point represents exactly, so a float
    is kept as the rational it denotes. *)
Inductive arg : Type :=
| arg_m (b : list Z)
| arg_f (x : Q).

Record Message : Type := mkMessage {
  path : string;
  args : list arg
}.

(** [liblo.Message(path)] and [message.add(arg)]. *)
Definition new_message (p : string) : Message := mkMessage p [].

Definition add (m : Message) (a : arg) : Message :=
  mkMessage (path m) (args m ++ [a]).

(** [liblo.send(target, message)]: the state is the log of the datagrams
    put on the network, each with its destination. *)
Definition send (target : Address) (m : Message)
  : M (list (Address * Message)) unit :=
  emit (target, m).

(** What the server receives: the path, the type tags and the arguments
    of a message, and where it came from. *)
Record Datagram : Type := mkDatagram {
  d_path : string;
  d_types : string;
  d_args : list arg;
  d_src : Address
}.

Section Server.
Variable S : Type.

Definition callback : Type :=
  string -> list arg -> string -> Address -> M S unit.

Record Method : Type := mkMethod {
  m_path : string;
  m_typespec : string;
  m_func : callback
}.

Record ServerThread : Type := mkServer {
  s_port : Z;
  s_methods : list Method
}.

(** [liblo.ServerThread(port)] and [server.add_method(path, typespec,
    func)]. *)
Definition new_server (p : Z) : ServerThread := mkServer p [].

Definition add_method (srv : ServerThread) (p t : string) (f : callback)
  : ServerThread :=
  mkServer (s_port srv) (s_methods srv ++ [mkMethod p t f]).

(** The server calls, in the order of registration, the methods whose
    path and type tags are those of the datagram. *)
Fixpoint dispatch (ms : list Method) (d : Datagram) : M S unit :=
  match ms with
  | [] => ret tt
  | m :: ms' =>
      bind (if (m_path m =? d_path d)%string
               && (m_typespec m =? d_types d)%string
            then m_func m (d_path d) (d_args d) (d_types d) (d_src d)
            else ret tt)
           (fun _ => dispatch ms' d)
  end.

Definition receive (srv : ServerThread) (d : Datagram) : M S unit :=
  dispatch (s_methods srv) d.
End Server.

Arguments mkMethod {S} _ _ _.
Arguments m_path {S} _.
Arguments m_typespec {S} _.
Arguments m_func {S} _.
Arguments mkServer {S} _ _.
Arguments s_port {S} _.
Arguments s_methods {S} _.
Arguments new_server {S} _.
Arguments add_method {S} _ _ _ _.
Arguments dispatch {S} _ _.
Arguments receive {S} _ _.

End Liblo.

(** ** netaddr: IPv4 networks *)

(** Modelled from the spec: the [netaddr] library is not among the
    sources.  An address is its 32-bit value; a network is an address with
    a prefix length, and its broadcast address has every host bit set. *)

Module Netaddr.

Record IPNetwork : Type := mkIPNetwork {
  value : Z;
  prefixlen : Z
}.

Definition hostmask_int (n : IPNetwork) : Z :=
  Z.shiftl 1 (32 - prefixlen n) - 1.

Definition broadcast (n : IPNetwork) : Z :=
  Z.lor (value n) (hostmask_int n).

(** The address [a.b.c.d] as a 32-bit value. *)
Definition of_octets (a b c d : Z) : Z :=
  ((a * 256 + b) * 256 + c) * 256 + d.

Definition octet (v : Z) (i : Z) : Z := Z.land (Z.shiftr v (8 * i)) 255.

(** [str(address)]: the dotted quad. *)
Definition str_ip (v : Z) : string :=
  (str (octet v 3) ++ "." ++ str (octet v 2) ++ "."
     ++ str (octet v 1) ++ "." ++ str (octet v 0))%string.

End Netaddr.

(** ** touchosc2midi.py *)

Definition PORT : Z := 12345.

(** [message_from_oscmidipayload(bites)]: [bites] is the list of the
    arguments of the OSC message; its first element is reversed, cut to four
    bytes and parsed. *)
Definition message_from_oscmidipayload (bites : list Liblo.arg)
  : result (option Mido.Message) :=
  match bites with
  | [] => Raise IndexError
  | Liblo.arg_m b :: _ => Mido.parse (firstn 4 (rev b))
  | Liblo.arg_f _ :: _ => Raise TypeError
  end.

(** [message_to_oscmidipayload(message)]. *)
Definition message_to_oscmidipayload (message : Mido.Message)
  : result (list Z) :=
  let bites := 0 :: Mido.bytes message in
  if Nat.eqb (List.length bites) 4
  then Ok [nth 0 bites 0; nth 3 bites 0; nth 2 bites 0; nth 1 bites 0]
  else Raise AssertionError.

(** The callback that [create_callback_on_osc(sink)] returns; the sink is
    the state. *)
Definition create_callback_on_osc
  : Liblo.callback (list (option Mido.Message)) :=
  fun path args types src =>
    (assert (path =? "/midi")%string ;;;
     assert (types =? "m")%string ;;;
     msg <- lift (message_from_oscmidipayload args) ;;
     Mido.send msg)%monad.

(** The callback that [create_callback_on_midi(target)] returns. *)
Definition create_callback_on_midi (target : Liblo.Address)
                                   (message : Mido.Message)
  : M (list (Liblo.Address * Liblo.Message)) unit :=
  if (Mido.type_name (Mido.type message) =? "clock")%string then ret tt
  else
    let b := Mido.bytes message in
    (b1 <- lift (index b 1) ;;
     let osc := Liblo.new_message ("/midi/" ++ str 8 ++ "/" ++ str b1)%string in
     b2 <- lift (index b 2) ;;
     let osc := Liblo.add osc (Liblo.arg_f (b2 # 128)%Q) in
     Liblo.send target osc)%monad.

(** What [main] sets up: the address it sends to, the server with its
    method, and the callback of the MIDI input.  [ip] is the value of the
    option [--ip]; [local_ip] is the address that [main_ip()] reads back
    from the socket, which [IPNetwork(main_ip() + "/16")] takes with a
    prefix of 16 bits. *)
Record Bridge : Type := mkBridge {
  target_address : string;
  server : Liblo.ServerThread (list (option Mido.Message));
  target : Liblo.Address;
  midi_in_callback :
    Mido.Message -> M (list (Liblo.Address * Liblo.Message)) unit
}.

(** [main], up to the point where it starts the server and waits.
    [not target_address] holds when the option is absent and when it is
    the empty string. *)
Definition main (ip : option string) (local_ip : Z) : Bridge :=
  let ip_network := Netaddr.mkIPNetwork local_ip 16 in
  let target_address :=
    match ip with
    | None => Netaddr.str_ip (Netaddr.broadcast ip_network)
    | Some s =>
        if (s =? "")%string
        then Netaddr.str_ip (Netaddr.broadcast ip_network)
        else s
    end in
  let server :=
    Liblo.add_method (Liblo.new_server PORT) "/midi" "m"
                     create_callback_on_osc in
  let target := Liblo.mkAddress target_address (PORT + 1) Liblo.UDP in
  mkBridge target_address server target (create_callback_on_midi target).

(** The inbound relay: the server of [main] receiving one datagram. *)
Definition inbound_relay (ip : option string) (local_ip : Z)
                         (d : Liblo.Datagram)
  : M (list (option Mido.Message)) unit :=
  Liblo.receive (server (main ip local_ip)) d.


(** ** The codec as the spec names it *)

(** [decode payload]: what the inbound callback computes from a message
    whose only argument is [payload]. *)
Definition decode (payload : list Z) : result (option Mido.Message) :=
  message_from_oscmidipayload [Liblo.arg_m payload].

Definition encode (e : Mido.Message) : result (list Z) :=
  message_to_oscmidipayload e.

Definition is_byte (b : Z) : bool := (0 <=? b) && (b <=? 255).

Definition is_data (b : Z) : bool := (0 <=? b) && (b <? 0x80).

(** The messages of three bytes: a type whose row has length 3, a channel
    in [0 .. 15] (0 where the type has none) and two data bytes. *)
Definition three_byte (m : Mido.Message) : bool :=
  match Mido.spec_of_type (Mido.type m) with
  | Some s =>
      match Mido.spec_length s with
      | Some 3%nat =>
          (if Mido.status_byte s <? 0xf0
           then (0 <=? Mido.channel m) && (Mido.channel m <=? 15)
           else Mido.channel m =? 0)
          && match Mido.data m with
             | [d1; d2] => is_data d1 && is_data d2
             | _ => false
             end
      | _ => false
      end
  | None => false
  end.

(** The event of the spec's examples: note_on, channel 0, note 60,
    velocity 100. *)
Definition note_on_60_100 : Mido.Message :=
  Mido.mkMessage Mido.note_on 0 [60; 100].

Definition peer_example : Liblo.Address :=
  Liblo.mkAddress "192.168.255.255" (PORT + 1) Liblo.UDP.

(** ** What surrounds the callbacks *)

(** Modelled from the spec: the type tags of an OSC message are those of
    its arguments, in order, and a message that was sent arrives as a
    datagram with its path, its type tags and its arguments. *)
Definition typetag (a : Liblo.arg) : string :=
  match a with
  | Liblo.arg_m _ => "m"
  | Liblo.arg_f _ => "f"
  end.

Definition typetags (l : list Liblo.arg) : string :=
  String.concat "" (map typetag l).

Definition datagram_of (src : Liblo.Address) (m : Liblo.Message)
  : Liblo.Datagram :=
  Liblo.mkDatagram (Liblo.path m) (typetags (Liblo.args m)) (Liblo.args m) src.

(** Modelled from the spec: the MIDI input port calls the callback set on
    it ([midi_in.callback = ...]) once for each incoming message, in the
    order of arrival. *)
Fixpoint midi_in_receive {S : Type} (callback : Mido.Message -> M S unit)
                         (messages : list Mido.Message) : M S unit :=
  match messages with
  | [] => ret tt
  | m :: ms => bind (callback m) (fun _ => midi_in_receive callback ms)
  end.

(** The messages of a fixed length as mido builds them: the data has the
    length that the type prescribes and is made of data bytes, and the
    channel is in [0 .. 15] (0 where the type has none). *)
Definition well_formed (m : Mido.Message) : bool :=
  match Mido.spec_of_type (Mido.type m) with
  | Some s =>
      match Mido.spec_length s with
      | Some n =>
          Nat.eqb (S (List.length (Mido.data m))) n
          && forallb is_data (Mido.data m)
          && (if Mido.status_byte s <? 0xf0
              then (0 <=? Mido.channel m) && (Mido.channel m <=? 15)
              else Mido.channel m =? 0)
      | None => false
      end
  | None => false
  end.

(** The status bytes that open a message of three bytes. *)
Definition three_byte_status (s : Z) : bool :=
  is_byte s
  && match Mido.get_spec s with
     | Some sp =>
         match Mido.spec_length sp with
         | Some 3%nat => true
         | _ => false
         end
     | None => false
     end.

Definition is_clock (m : Mido.Message) : bool :=
  (Mido.type_name (Mido.type m) =? "clock")%string.

(** * Properties *)

(** ** The parser *)

Section ParserFacts.
Import Mido.

Lemma feed_byte_in_range (p : Parser) (b : Z) :
  is_byte b = true ->
  feed_byte p b =
  Ok (complete (if 0x80 <=? b then handle_status_byte p b
                else handle_data_byte p b)).
Proof.
  unfold is_byte, feed_byte. intros ->. reflexivity.
Qed.

Lemma feed_byte_data (p : Parser) (b : Z) :
  is_data b = true ->
  feed_byte p b = Ok (complete (handle_data_byte p b)).
Proof.
  unfold is_data. intros H. apply andb_prop in H as [H0 H1].
  apply Z.leb_le in H0. apply Z.ltb_lt in H1.
  rewrite feed_byte_in_range.
  - replace (0x80 <=? b) with false by (symmetry; apply Z.leb_gt; lia).
    reflexivity.
  - unfold is_byte. apply andb_true_intro. split.
    + apply Z.leb_le; lia.
    + apply Z.leb_le; lia.
Qed.

(** Feeding one byte only ever adds to the end of the queue. *)
Lemma complete_extends (p : Parser) :
  exists l, p_messages (complete p) = p_messages p ++ l.
Proof.
  unfold complete.
  destruct (p_spec p) as [s|]; [|exists []; now rewrite app_nil_r].
  destruct (spec_length s) as [n|]; [|exists []; now rewrite app_nil_r].
  destruct (Nat.eqb _ n).
  - eexists. reflexivity.
  - exists []. now rewrite app_nil_r.
Qed.

Lemma handle_status_byte_extends (p : Parser) (b : Z) :
  exists l, p_messages (handle_status_byte p b) = p_messages p ++ l.
Proof.
  unfold handle_status_byte.
  destruct (0xf8 <=? b).
  - destruct (get_spec b); [eexists; reflexivity|].
    exists []. now rewrite app_nil_r.
  - destruct (b =? 0xf7).
    + destruct (p_spec p) as [s|]; [|exists []; now rewrite app_nil_r].
      destruct (msg_type_eqb (spec_type s) sysex).
      * eexists. reflexivity.
      * exists []. now rewrite app_nil_r.
    + destruct (get_spec b); exists []; simpl; now rewrite app_nil_r.
Qed.

Lemma handle_data_byte_extends (p : Parser) (b : Z) :
  exists l, p_messages (handle_data_byte p b) = p_messages p ++ l.
Proof.
  unfold handle_data_byte.
  destruct (p_spec p); exists []; simpl; now rewrite app_nil_r.
Qed.

Lemma feed_byte_extends (p : Parser) (b : Z) :
  is_byte b = true ->
  exists p', feed_byte p b = Ok p'
             /\ exists l, p_messages p' = p_messages p ++ l.
Proof.
  intros Hb. rewrite (feed_byte_in_range p b Hb).
  eexists. split; [reflexivity|].
  destruct (complete_extends
              (if 0x80 <=? b then handle_status_byte p b
               else handle_data_byte p b)) as [l1 H1].
  rewrite H1.
  destruct (0x80 <=? b).
  - destruct (handle_status_byte_extends p b) as [l2 ->].
    exists (l2 ++ l1). now rewrite app_assoc.
  - destruct (handle_data_byte_extends p b) as [l2 ->].
    exists (l2 ++ l1). now rewrite app_assoc.
Qed.

(** On bytes the parser never raises, and the queue only grows. *)
Lemma feed_extends (bs : list Z) :
  forall p, forallb is_byte bs = true ->
  exists p', feed p bs = Ok p'
             /\ exists l, p_messages p' = p_messages p ++ l.
Proof.
  induction bs as [|b bs IH]; intros p Hbs.
  - exists p. split; [reflexivity|]. exists []. now rewrite app_nil_r.
  - simpl in Hbs. apply andb_prop in Hbs as [Hb Hbs].
    destruct (feed_byte_extends p b Hb) as (p1 & E1 & l1 & M1).
    destruct (IH p1 Hbs) as (p2 & E2 & l2 & M2).
    exists p2. split.
    + simpl. rewrite E1. exact E2.
    + exists (l1 ++ l2). rewrite M2, M1. now rewrite app_assoc.
Qed.

Lemma feed_app (bs1 bs2 : list Z) :
  forall p, feed p (bs1 ++ bs2) = rbind (feed p bs1) (fun p' => feed p' bs2).
Proof.
  induction bs1 as [|b bs1 IH]; intros p; simpl.
  - reflexivity.
  - destruct (feed_byte p b) as [p1|e]; simpl; [apply IH | reflexivity].
Qed.

(** Once a message is in the queue, [parse] returns it whatever bytes
    follow. *)
Lemma parse_first (bs1 bs2 : list Z) (p : Parser) (m : Message) (ms : list Message) :
  feed new_parser bs1 = Ok p ->
  p_messages p = m :: ms ->
  forallb is_byte bs2 = true ->
  parse (bs1 ++ bs2) = Ok (Some m).
Proof.
  intros E1 Hm Hbs. unfold parse. rewrite feed_app, E1. simpl.
  destruct (feed_extends bs2 p Hbs) as (p2 & E2 & l & M2).
  rewrite E2. simpl. rewrite M2, Hm. reflexivity.
Qed.

Lemma parse_total (bs : list Z) :
  forallb is_byte bs = true -> exists r, parse bs = Ok r.
Proof.
  intros Hbs. destruct (feed_extends bs new_parser Hbs) as (p & E & _).
  unfold parse. rewrite E. eexists. reflexivity.
Qed.

End ParserFacts.

Section CodecFacts.
Import Mido.

Lemma channel_cases (c : Z) :
  (0 <=? c) && (c <=? 15) = true ->
  In c [0; 1; 2; 3; 4; 5; 6; 7; 8; 9; 10; 11; 12; 13; 14; 15].
Proof.
  intros H. apply andb_prop in H as [H0 H1].
  apply Z.leb_le in H0. apply Z.leb_le in H1.
  assert (E : c = Z.of_nat (Z.to_nat c)) by lia.
  assert (L : (Z.to_nat c < 16)%nat) by lia.
  rewrite E. clear E H0 H1.
  generalize dependent (Z.to_nat c). intros n L.
  do 16 (destruct n as [|n];
         [simpl; repeat (first [left; reflexivity | right]) | ]).
  lia.
Qed.

(** The parser reads back the bytes of a three-byte message. *)
Lemma feed_three_byte (m : Message) :
  three_byte m = true ->
  feed new_parser (bytes m) = Ok (mkParser None [] [m]).
Proof.
  destruct m as [t c ds]. unfold three_byte. simpl.
  destruct t; simpl; try discriminate;
    destruct ds as [|d1 [|d2 [|d3 ds]]];
    rewrite ?andb_false_r; try discriminate;
    intros H; apply andb_prop in H as [Hc Hd];
    apply andb_prop in Hd as [Hd1 Hd2].
  all: try (apply channel_cases in Hc; simpl in Hc;
            repeat (destruct Hc as [<-|Hc]; [|]); try contradiction).
  all: try (apply Z.eqb_eq in Hc; subst c).
  all: unfold bytes; simpl; rewrite (feed_byte_data _ _ Hd1); simpl;
       rewrite (feed_byte_data _ _ Hd2); reflexivity.
Qed.

End CodecFacts.

Section CodecClaims.
Import Mido.

Lemma three_byte_bytes (m : Message) :
  three_byte m = true ->
  exists s d1 d2, bytes m = [s; d1; d2].
Proof.
  destruct m as [t c ds]. unfold three_byte, bytes. simpl.
  destruct t; simpl; try discriminate;
    destruct ds as [|d1 [|d2 [|d3 ds]]];
    rewrite ?andb_false_r; try discriminate;
    intros _; do 3 eexists; reflexivity.
Qed.

Lemma forallb_firstn {A : Type} (f : A -> bool) (n : nat) :
  forall l, forallb f l = true -> forallb f (firstn n l) = true.
Proof.
  induction n as [|n IH]; intros [|x l]; simpl; try reflexivity.
  intros H. apply andb_prop in H as [Hx Hl].
  rewrite Hx. simpl. now apply IH.
Qed.

Lemma forallb_rev {A : Type} (f : A -> bool) (l : list A) :
  forallb f l = true -> forallb f (rev l) = true.
Proof.
  rewrite !forallb_forall. intros H x Hx. apply H. now apply in_rev.
Qed.

(** A payload that ends with the bytes of a three-byte message, written
    backwards, decodes to that message, whatever comes before them. *)
Lemma decode_suffix (pre : list Z) (m : Message) :
  three_byte m = true ->
  forallb is_byte pre = true ->
  decode (pre ++ rev (bytes m)) = Ok (Some m).
Proof.
  intros Hm Hpre. unfold decode, message_from_oscmidipayload.
  rewrite rev_app_distr, rev_involutive.
  destruct (three_byte_bytes m Hm) as (s & d1 & d2 & Hb).
  assert (E : firstn 4 (bytes m ++ rev pre)
              = bytes m ++ firstn 1 (rev pre)).
  { rewrite Hb. reflexivity. }
  rewrite E.
  apply (parse_first (bytes m) (firstn 1 (rev pre))
                     (mkParser None [] [m]) m []).
  - now apply feed_three_byte.
  - reflexivity.
  - apply forallb_firstn. now apply forallb_rev.
Qed.

Lemma encode_three (m : Message) (s d1 d2 : Z) :
  bytes m = [s; d1; d2] -> encode m = Ok [0; d2; d1; s].
Proof.
  intros Hb. unfold encode, message_to_oscmidipayload. rewrite Hb.
  reflexivity.
Qed.

Lemma last_four {A : Type} (p : list A) :
  (4 <= List.length p)%nat ->
  exists pre b0 b1 b2 b3, p = pre ++ [b0; b1; b2; b3].
Proof.
  intros H. rewrite <- (rev_involutive p) in *.
  rewrite length_rev in H.
  destruct (rev p) as [|x1 [|x2 [|x3 [|x4 r]]]]; simpl in H; try lia.
  exists (rev r), x4, x3, x2, x1. simpl.
  repeat rewrite <- app_assoc. reflexivity.
Qed.

(** C2 (as amended).  For every three-byte event, decoding the payload
    that encode builds gives the event back: encode writes
    [port-id, data2, data1, status] and decode reads the payload backwards,
    so the two orders agree. *)
Theorem decode_encode_roundtrip (e : Message) :
  three_byte e = true ->
  rbind (encode e) decode = Ok (Some e).
Proof.
  intros He.
  destruct (three_byte_bytes e He) as (s & d1 & d2 & Hb).
  rewrite (encode_three e s d1 d2 Hb). simpl.
  change [0; d2; d1; s] with ([0] ++ rev [s; d1; d2]).
  rewrite <- Hb. now apply decode_suffix.
Qed.

Lemma decode_encode_roundtrip_witness :
  three_byte note_on_60_100 = true
  /\ rbind (encode note_on_60_100) decode = Ok (Some note_on_60_100).
Proof.
  split; [reflexivity | exact (decode_encode_roundtrip note_on_60_100 eq_refl)].
Defined.

(** C2 (as stated) fails: for the note_on event of the spec's own example,
    which is a three-byte event, the direct composition of encode and
    decode returns the event. *)
Lemma decode_encode_is_identity_on_note_on :
  ~ (forall e : Message,
        three_byte e = true -> rbind (encode e) decode <> Ok (Some e)).
Proof.
  intros H. apply (H note_on_60_100); reflexivity.
Qed.

(** C3 (as amended).  The payload [0x00, 0x64, 0x3C, 0x90], that is
    [port-id, data2, data1, status], decodes to note_on with note 60 and
    velocity 100 on channel 0; the payload [0x00, 0x90, 0x3C, 0x64] holds no
    message for decode, which reads it backwards. *)
Theorem decode_note_on_example :
  decode [0x00; 0x64; 0x3c; 0x90] = Ok (Some (mkMessage note_on 0 [60; 100]))
  /\ decode [0x00; 0x90; 0x3c; 0x64] = Ok None.
Proof.
  split; reflexivity.
Qed.

(** C3 (as stated) fails: on [0x00, 0x90, 0x3C, 0x64] decode does not yield
    the note_on event. *)
Lemma decode_receive_order_no_event :
  decode [0x00; 0x90; 0x3c; 0x64] <> Ok (Some (mkMessage note_on 0 [60; 100])).
Proof.
  discriminate.
Qed.

(** C4 (as amended).  A payload of bytes whose length is not 4 is not
    refused: decode returns without an error, and when the payload ends
    with data2, data1, status of a three-byte event it returns that
    event. *)
Theorem decode_any_length (p : list Z) :
  List.length p <> 4%nat ->
  forallb is_byte p = true ->
  (exists r, decode p = Ok r)
  /\ (forall (pre : list Z) (e : Message),
         three_byte e = true ->
         p = pre ++ rev (bytes e) ->
         decode p = Ok (Some e)).
Proof.
  intros _ Hp. split.
  - unfold decode, message_from_oscmidipayload.
    apply parse_total. apply forallb_firstn. now apply forallb_rev.
  - intros pre e He ->. apply decode_suffix; [exact He|].
    rewrite forallb_app in Hp. now apply andb_prop in Hp as [Hpre _].
Qed.

Lemma decode_any_length_witness :
  List.length [100; 60; 0x90] <> 4%nat
  /\ forallb is_byte [100; 60; 0x90] = true
  /\ decode [100; 60; 0x90] = Ok (Some note_on_60_100).
Proof.
  assert (L : List.length [100; 60; 0x90] <> 4%nat) by discriminate.
  split; [exact L|]. split; [reflexivity|].
  exact (proj2 (decode_any_length [100; 60; 0x90] L eq_refl)
               [] note_on_60_100 eq_refl eq_refl).
Defined.

(** C4 (as stated) fails: the payload [100, 60, 0x90], of three bytes, is
    decoded and yields an event. *)
Lemma decode_accepts_other_lengths :
  ~ (forall p : list Z,
        List.length p <> 4%nat -> exists x, decode p = Raise x).
Proof.
  intros H. destruct (H [100; 60; 0x90]) as [x Hx]; discriminate.
Qed.

(** C6.  encode fails, with the failure of its assertion, exactly when the
    event does not have three bytes, and succeeds on every event of three
    bytes. *)
Theorem encode_fails_iff_not_three_bytes (e : Message) :
  (encode e = Raise AssertionError <-> List.length (bytes e) <> 3%nat)
  /\ (List.length (bytes e) = 3%nat -> exists payload, encode e = Ok payload)
  /\ (forall x, encode e = Raise x -> x = AssertionError).
Proof.
  unfold encode, message_to_oscmidipayload. simpl List.length.
  destruct (Nat.eqb_spec (S (List.length (bytes e))) 4) as [E|E].
  - repeat split.
    + discriminate.
    + intros H. exfalso. apply H. lia.
    + intros _. eexists. reflexivity.
    + intros x Hx. discriminate.
  - repeat split.
    + intros _ H. apply E. lia.
    + intros H. exfalso. apply E. lia.
    + intros x Hx. now inversion Hx.
Qed.

Lemma encode_fails_iff_not_three_bytes_witness :
  List.length (bytes note_on_60_100) = 3%nat
  /\ (exists payload, encode note_on_60_100 = Ok payload)
  /\ List.length (bytes (mkMessage clock 0 [])) <> 3%nat
  /\ encode (mkMessage clock 0 []) = Raise AssertionError.
Proof.
  assert (L : List.length (bytes (mkMessage clock 0 [])) <> 3%nat)
    by discriminate.
  split; [reflexivity|]. split.
  - exact (proj1 (proj2 (encode_fails_iff_not_three_bytes note_on_60_100))
                 eq_refl).
  - split; [exact L|].
    exact (proj2 (proj1 (encode_fails_iff_not_three_bytes
                           (mkMessage clock 0 []))) L).
Defined.

(** C8.  For every event whose bytes are status [s], data1 [d1] and data2
    [d2], encode yields [0, d2, d1, s]; for note_on with status 0x90, note
    60 and velocity 100 it yields [0x00, 0x64, 0x3C, 0x90]. *)
Theorem encode_send_order :
  (forall (e : Message) (s d1 d2 : Z),
      bytes e = [s; d1; d2] -> encode e = Ok [0; d2; d1; s])
  /\ bytes note_on_60_100 = [0x90; 60; 100]
  /\ encode note_on_60_100 = Ok [0x00; 0x64; 0x3c; 0x90].
Proof.
  split; [exact encode_three|]. split; reflexivity.
Qed.

Lemma encode_send_order_witness :
  bytes (mkMessage control_change 3 [7; 127]) = [0xb3; 7; 127]
  /\ encode (mkMessage control_change 3 [7; 127]) = Ok [0; 127; 7; 0xb3].
Proof.
  split; [reflexivity|].
  exact (proj1 encode_send_order (mkMessage control_change 3 [7; 127])
               0xb3 7 127 eq_refl).
Defined.

(** C10.  On a payload of at least four bytes decode checks no length: it
    parses the last four bytes in reverse order, [b[n-1], b[n-2], b[n-3],
    b[n-4]], so its result depends on them alone and what comes before
    them in a longer payload is dropped. *)
Theorem decode_last_four_reversed (p : list Z) :
  (4 <= List.length p)%nat ->
  let n := List.length p in
  decode p = parse [nth (n - 1) p 0; nth (n - 2) p 0;
                    nth (n - 3) p 0; nth (n - 4) p 0]
  /\ decode p = decode (skipn (n - 4) p)
  /\ (forall q : list Z,
         (4 <= List.length q)%nat ->
         skipn (List.length q - 4) q = skipn (n - 4) p ->
         decode q = decode p).
Proof.
  intros Hp n.
  assert (Key : forall l : list Z, (4 <= List.length l)%nat ->
            decode l = parse (rev (skipn (List.length l - 4) l))
            /\ parse (rev (skipn (List.length l - 4) l))
               = parse [nth (List.length l - 1) l 0;
                        nth (List.length l - 2) l 0;
                        nth (List.length l - 3) l 0;
                        nth (List.length l - 4) l 0]).
  { intros l Hl. destruct (last_four l Hl) as (pre & b0 & b1 & b2 & b3 & ->).
    rewrite length_app. simpl List.length.
    assert (Sk : skipn (List.length pre + 4 - 4) (pre ++ [b0; b1; b2; b3])
                 = [b0; b1; b2; b3]).
    { replace (List.length pre + 4 - 4)%nat with (List.length pre) by lia.
      rewrite skipn_app, skipn_all, Nat.sub_diag. reflexivity. }
    assert (Nth : forall k : nat, (k < 4)%nat ->
              nth (List.length pre + 4 - S k) (pre ++ [b0; b1; b2; b3]) 0
              = nth (3 - k) [b0; b1; b2; b3] 0).
    { intros k Hk. rewrite app_nth2 by lia. f_equal. lia. }
    rewrite Sk. split.
    - unfold decode, message_from_oscmidipayload.
      rewrite rev_app_distr. reflexivity.
    - rewrite (Nth 0%nat), (Nth 1%nat), (Nth 2%nat), (Nth 3%nat) by lia.
      reflexivity. }
  destruct (Key p Hp) as [K1 K2]. fold n in K1, K2.
  split; [now rewrite K1|]. split.
  - rewrite K1.
    assert (L4 : List.length (skipn (n - 4) p) = 4%nat)
      by (rewrite length_skipn; unfold n; lia).
    destruct (Key (skipn (n - 4) p)) as [K3 _]; [lia|].
    rewrite K3, L4. reflexivity.
  - intros q Hq E. destruct (Key q Hq) as [K3 _].
    rewrite K3, E, K1. reflexivity.
Qed.

Lemma decode_last_four_reversed_witness :
  (4 <= List.length [9; 9; 0; 100; 60; 0x90])%nat
  /\ decode [9; 9; 0; 100; 60; 0x90] = parse [0x90; 60; 100; 0]
  /\ decode [9; 9; 0; 100; 60; 0x90] = decode [0; 100; 60; 0x90].
Proof.
  assert (L : (4 <= List.length [9; 9; 0; 100; 60; 0x90])%nat)
    by (simpl; repeat constructor).
  split; [exact L|]. split.
  - exact (proj1 (decode_last_four_reversed [9; 9; 0; 100; 60; 0x90] L)).
  - exact (proj1 (proj2 (decode_last_four_reversed
                           [9; 9; 0; 100; 60; 0x90] L))).
Defined.

End CodecClaims.

(** ** The relays and the start-up *)

Section RelayClaims.
Import Mido.

(** Every call of the sink leaves a trace in its log. *)
Lemma send_logs (msg : option Message) (log : list (option Message)) :
  snd (Mido.send msg log) = log ++ [msg].
Proof.
  destruct msg; reflexivity.
Qed.

Lemma type_name_clock (t : msg_type) :
  (type_name t =? "clock")%string = true <-> t = clock.
Proof.
  split.
  - destruct t; simpl; intros H; try discriminate; reflexivity.
  - intros ->. reflexivity.
Qed.

(** X7.  Called with another path or other type tags, the callback itself
    raises on its assertion and leaves the sink alone; it is the server's
    table of methods that keeps such messages away from it. *)
Lemma callback_on_osc_asserts (path types : string) (args : list Liblo.arg)
      (src : Liblo.Address) (log : list (option Message)) :
  path <> "/midi" \/ types <> "m" ->
  create_callback_on_osc path args types src log = (Raise AssertionError, log).
Proof.
  intros H. unfold create_callback_on_osc, bind, assert.
  destruct (String.eqb_spec path "/midi") as [->|Hp]; [|reflexivity].
  destruct H as [H|H]; [contradiction|].
  destruct (String.eqb_spec types "m") as [->|Ht]; [contradiction|reflexivity].
Qed.

(** X6.  A datagram for "/midi" with type tags "m" whose bytes end with a
    three-byte message written backwards is handed to the sink as that
    message, once, and nothing is raised. *)
Lemma inbound_relay_delivers (ip : option string) (local_ip : Z)
      (pre : list Z) (e : Message) (src : Liblo.Address)
      (log : list (option Message)) :
  three_byte e = true ->
  forallb is_byte pre = true ->
  inbound_relay ip local_ip
    (Liblo.mkDatagram "/midi" "m" [Liblo.arg_m (pre ++ rev (bytes e))] src)
    log
  = (Ok tt, log ++ [Some e]).
Proof.
  intros He Hpre. pose proof (decode_suffix pre e He Hpre) as D.
  unfold decode in D.
  unfold inbound_relay, Liblo.receive, main.
  cbn [server Liblo.s_methods Liblo.add_method Liblo.new_server app
       Liblo.dispatch Liblo.m_path Liblo.m_typespec Liblo.m_func
       Liblo.d_path Liblo.d_types Liblo.d_args Liblo.d_src].
  rewrite !String.eqb_refl. cbn [andb].
  unfold create_callback_on_osc, bind, assert, lift.
  rewrite !String.eqb_refl. cbn [ret]. rewrite D. reflexivity.
Qed.

(** X9.  An event that is not a clock and has fewer than three bytes
    (program_change, aftertouch, start, stop, ...) makes the outbound
    callback raise IndexError on [b[1]] or [b[2]]; nothing is sent. *)
Lemma callback_on_midi_short (peer : Liblo.Address) (e : Message)
      (sent : list (Liblo.Address * Liblo.Message)) :
  type e <> clock ->
  (List.length (bytes e) < 3)%nat ->
  create_callback_on_midi peer e sent = (Raise IndexError, sent).
Proof.
  intros Ht Hl. unfold create_callback_on_midi.
  destruct (type_name (type e) =? "clock")%string eqn:E.
  - apply type_name_clock in E. contradiction.
  - destruct (bytes e) as [|s [|d1 [|d2 r]]]; simpl in Hl; try lia;
      reflexivity.
Qed.

(** C1 (as amended).  For every event that is not a clock and has at least
    three bytes (status, data1, data2), the outbound callback sends one
    message to the fixed peer: its address is "/midi/8/" followed by data1
    in decimal, and its single argument is the float data2 / 128. *)
Theorem callback_on_midi_sends (peer : Liblo.Address) (e : Message)
        (s d1 d2 : Z) (rest : list Z)
        (sent : list (Liblo.Address * Liblo.Message)) :
  type e <> clock ->
  bytes e = s :: d1 :: d2 :: rest ->
  create_callback_on_midi peer e sent
  = (Ok tt,
     sent ++ [(peer,
               Liblo.mkMessage ("/midi/8/" ++ str d1)%string
                               [Liblo.arg_f (d2 # 128)%Q])]).
Proof.
  intros Ht Hb. unfold create_callback_on_midi.
  destruct (type_name (type e) =? "clock")%string eqn:E.
  - apply type_name_clock in E. contradiction.
  - rewrite Hb. reflexivity.
Qed.

Lemma callback_on_midi_sends_witness :
  type note_on_60_100 <> clock
  /\ bytes note_on_60_100 = [0x90; 60; 100]
  /\ create_callback_on_midi peer_example note_on_60_100 []
     = (Ok tt,
        [(peer_example,
          Liblo.mkMessage "/midi/8/60" [Liblo.arg_f (100 # 128)%Q])]).
Proof.
  assert (T : type note_on_60_100 <> clock) by discriminate.
  split; [exact T|]. split; [reflexivity|].
  exact (callback_on_midi_sends peer_example note_on_60_100
                                0x90 60 100 [] [] T eq_refl).
Defined.

(** C1 (as stated) fails: for the note_on event, which is not a clock and
    which encode turns into [0, 100, 60, 0x90], the message sent is not the
    message with address "/midi" and that blob. *)
Lemma callback_on_midi_not_midi_blob :
  type note_on_60_100 <> clock
  /\ encode note_on_60_100 = Ok [0; 100; 60; 0x90]
  /\ snd (create_callback_on_midi peer_example note_on_60_100 [])
     <> [(peer_example,
          Liblo.mkMessage "/midi" [Liblo.arg_m [0; 100; 60; 0x90]])].
Proof.
  split; [discriminate|]. split; [reflexivity|]. discriminate.
Qed.

(** C5.  A datagram whose address is not "/midi", or whose type tags are
    not "m", is dropped by the inbound relay: nothing is raised and the
    sink is not called. *)
Theorem inbound_relay_discards (ip : option string) (local_ip : Z)
        (d : Liblo.Datagram) (log : list (option Message)) :
  Liblo.d_path d <> "/midi" \/ Liblo.d_types d <> "m" ->
  inbound_relay ip local_ip d log = (Ok tt, log).
Proof.
  intros H. unfold inbound_relay, Liblo.receive, main.
  cbn [server Liblo.s_methods Liblo.add_method Liblo.new_server app
       Liblo.dispatch Liblo.m_path Liblo.m_typespec Liblo.m_func].
  assert (E : ("/midi" =? Liblo.d_path d)%string
              && ("m" =? Liblo.d_types d)%string = false).
  { apply andb_false_iff.
    destruct H as [H|H]; [left|right]; apply String.eqb_neq; congruence. }
  rewrite E. reflexivity.
Qed.

Lemma inbound_relay_discards_witness :
  inbound_relay None 0
    (Liblo.mkDatagram "/foo" "m" [Liblo.arg_m [0; 100; 60; 0x90]]
                      peer_example) []
  = (Ok tt, [])
  /\ inbound_relay None 0
       (Liblo.mkDatagram "/midi" "f" [Liblo.arg_f (1 # 2)%Q] peer_example) []
     = (Ok tt, []).
Proof.
  split.
  - apply (inbound_relay_discards None 0
             (Liblo.mkDatagram "/foo" "m" [Liblo.arg_m [0; 100; 60; 0x90]]
                               peer_example) []).
    left. discriminate.
  - apply (inbound_relay_discards None 0
             (Liblo.mkDatagram "/midi" "f" [Liblo.arg_f (1 # 2)%Q]
                               peer_example) []).
    right. discriminate.
Defined.

(** C7.  On a clock event the outbound callback returns at once: nothing is
    sent to the peer. *)
Theorem callback_on_midi_drops_clock (peer : Liblo.Address) (e : Message)
        (sent : list (Liblo.Address * Liblo.Message)) :
  type e = clock ->
  create_callback_on_midi peer e sent = (Ok tt, sent).
Proof.
  intros Ht. unfold create_callback_on_midi. rewrite Ht. reflexivity.
Qed.

Lemma callback_on_midi_drops_clock_witness :
  create_callback_on_midi peer_example (mkMessage clock 0 []) []
  = (Ok tt, []).
Proof.
  exact (callback_on_midi_drops_clock peer_example (mkMessage clock 0 []) []
                                      eq_refl).
Defined.

End RelayClaims.

Section StartupClaims.
Import Netaddr.

Lemma lor_low16 (v : Z) : Z.lor v 65535 = v - v mod 65536 + 65535.
Proof.
  pose proof (Z.add_lor_land v 65535) as H.
  change 65535 with (Z.ones 16) in H at 2.
  rewrite Z.land_ones in H by lia.
  change (2 ^ 16) with 65536 in H. lia.
Qed.

Lemma broadcast_16 (a b c d : Z) :
  0 <= c <= 255 -> 0 <= d <= 255 ->
  broadcast (mkIPNetwork (of_octets a b c d) 16) = of_octets a b 255 255.
Proof.
  intros Hc Hd. unfold broadcast, hostmask_int. simpl.
  rewrite lor_low16. unfold of_octets.
  assert (E : (((a * 256 + b) * 256 + c) * 256 + d) mod 65536 = c * 256 + d).
  { symmetry. apply (Z.mod_unique_pos _ _ (a * 256 + b)); lia. }
  rewrite E. lia.
Qed.

Lemma octets_of_octets (a b c d : Z) :
  0 <= a <= 255 -> 0 <= b <= 255 -> 0 <= c <= 255 -> 0 <= d <= 255 ->
  octet (of_octets a b c d) 3 = a
  /\ octet (of_octets a b c d) 2 = b
  /\ octet (of_octets a b c d) 1 = c
  /\ octet (of_octets a b c d) 0 = d.
Proof.
  intros Ha Hb Hc Hd. unfold octet, of_octets.
  change 255 with (Z.ones 8).
  rewrite !Z.land_ones, !Z.shiftr_div_pow2 by lia.
  simpl Z.mul. change (2 ^ 24) with 16777216. change (2 ^ 16) with 65536.
  change (2 ^ 8) with 256. change (2 ^ 0) with 1.
  repeat split; Z.div_mod_to_equations; lia.
Qed.

(** C9.  With no address given, the bridge sends to the broadcast address
    of the local address taken with a 16-bit prefix, [a.b.255.255] for the
    local address [a.b.c.d]; with an address given, it sends to that
    address as it is.  The server listens on port 12345 and the peer's port
    is that port plus one. *)
Theorem main_peer :
  (forall a b c d : Z,
      0 <= a <= 255 -> 0 <= b <= 255 -> 0 <= c <= 255 -> 0 <= d <= 255 ->
      broadcast (mkIPNetwork (of_octets a b c d) 16) = of_octets a b 255 255
      /\ target (main None (of_octets a b c d))
         = Liblo.mkAddress (str a ++ "." ++ str b ++ ".255.255")%string
                           (12345 + 1) Liblo.UDP)
  /\ (forall (s : string) (local_ip : Z),
         s <> ""%string ->
         target (main (Some s) local_ip)
         = Liblo.mkAddress s (12345 + 1) Liblo.UDP)
  /\ (forall (ip : option string) (local_ip : Z),
         Liblo.s_port (server (main ip local_ip)) = 12345
         /\ Liblo.port (target (main ip local_ip))
            = Liblo.s_port (server (main ip local_ip)) + 1).
Proof.
  split; [|split].
  - intros a b c d Ha Hb Hc Hd.
    pose proof (broadcast_16 a b c d Hc Hd) as B.
    split; [exact B|].
    unfold main, target. rewrite B. unfold str_ip.
    destruct (octets_of_octets a b 255 255) as (O3 & O2 & O1 & O0); try lia.
    rewrite O3, O2, O1, O0. reflexivity.
  - intros s local_ip Hs. unfold main, target.
    destruct (String.eqb_spec s "") as [E|E]; [contradiction|reflexivity].
  - intros ip local_ip. split; reflexivity.
Qed.

Lemma main_peer_witness :
  target (main None (of_octets 192 168 1 17))
  = Liblo.mkAddress "192.168.255.255" 12346 Liblo.UDP
  /\ target (main (Some "10.0.0.7") (of_octets 192 168 1 17))
     = Liblo.mkAddress "10.0.0.7" 12346 Liblo.UDP.
Proof.
  split.
  - apply (proj1 main_peer 192 168 1 17); lia.
  - apply (proj1 (proj2 main_peer) "10.0.0.7" (of_octets 192 168 1 17)).
    discriminate.
Defined.

End StartupClaims.

(** * Further properties *)

(** ** The codec *)

Section CodecMore.
Import Mido.

Lemma forallb_data_byte (l : list Z) :
  forallb is_data l = true -> forallb is_byte l = true.
Proof.
  rewrite !forallb_forall. intros H x Hx. specialize (H x Hx).
  unfold is_data in H. unfold is_byte.
  apply andb_prop in H as [H0 H1]. rewrite H0. simpl.
  apply Z.ltb_lt in H1. apply Z.leb_le. lia.
Qed.

(** The parser reads back the bytes of every well-formed message. *)
Lemma feed_well_formed (m : Message) :
  well_formed m = true ->
  feed new_parser (bytes m) = Ok (mkParser None [] [m])
  /\ (List.length (bytes m) <= 3)%nat.
Proof.
  destruct m as [t c ds]. unfold well_formed. simpl.
  destruct t; simpl; try discriminate;
    destruct ds as [|d1 [|d2 [|d3 ds]]]; simpl;
    try discriminate;
    intros H; repeat rewrite andb_true_iff in H;
    repeat match goal with
           | H' : _ /\ _ |- _ => destruct H'
           end.
  all: try match goal with
           | H0 : (0 <=? ?x) = true, H1 : (?x <=? 15) = true |- _ =>
               pose proof (channel_cases x (andb_true_intro (conj H0 H1)))
                 as Hc;
               clear H0 H1; simpl in Hc;
               repeat (destruct Hc as [<-|Hc]; [|]); try contradiction
           end.
  all: try match goal with
           | H0 : (?x =? 0) = true |- _ => apply Z.eqb_eq in H0; subst x
           end.
  all: unfold bytes; simpl;
       repeat match goal with
              | H : is_data ?d = true |- context [feed_byte _ ?d] =>
                  rewrite (feed_byte_data _ _ H); simpl
              end;
       split; [reflexivity | lia].
Qed.

(** X1.  A payload of bytes that ends with the bytes of a well-formed
    message of one, two or three bytes, written backwards, decodes to that
    message, whatever bytes come before: decode also takes the messages of
    one and two bytes (program_change, aftertouch, start, stop, ...). *)
Theorem decode_well_formed (pre : list Z) (m : Message) :
  well_formed m = true ->
  forallb is_byte pre = true ->
  decode (pre ++ rev (bytes m)) = Ok (Some m).
Proof.
  intros Hm Hpre. destruct (feed_well_formed m Hm) as [F L].
  unfold decode, message_from_oscmidipayload.
  rewrite rev_app_distr, rev_involutive, firstn_app.
  rewrite (firstn_all2 (n := 4) (bytes m)) by lia.
  apply (parse_first (bytes m) _ (mkParser None [] [m]) m []).
  - exact F.
  - reflexivity.
  - apply forallb_firstn. now apply forallb_rev.
Qed.

Lemma decode_well_formed_witness :
  decode [0; 0; 5; 0xc3] = Ok (Some (mkMessage program_change 3 [5])).
Proof.
  exact (decode_well_formed [0; 0] (mkMessage program_change 3 [5])
                            eq_refl eq_refl).
Defined.

(** X2.  encode loses nothing: two events with the same payload have the
    same bytes, and two three-byte events with the same payload are the
    same event. *)
Theorem encode_injective (e1 e2 : Message) (payload : list Z) :
  encode e1 = Ok payload ->
  encode e2 = Ok payload ->
  bytes e1 = bytes e2
  /\ (three_byte e1 = true -> three_byte e2 = true -> e1 = e2).
Proof.
  unfold encode, message_to_oscmidipayload. simpl List.length.
  intros H1 H2.
  assert (B : bytes e1 = bytes e2).
  { destruct (bytes e1) as [|a1 [|b1 [|c1 [|x1 r1]]]]; simpl in H1;
      try discriminate.
    destruct (bytes e2) as [|a2 [|b2 [|c2 [|x2 r2]]]]; simpl in H2;
      try discriminate.
    congruence. }
  split; [exact B|].
  intros T1 T2.
  pose proof (decode_suffix [0] e1 T1 eq_refl) as D1.
  pose proof (decode_suffix [0] e2 T2 eq_refl) as D2.
  rewrite B in D1. congruence.
Qed.

Lemma encode_injective_witness :
  bytes (mkMessage note_on 0 [60; 100]) = bytes note_on_60_100.
Proof.
  exact (proj1 (encode_injective (mkMessage note_on 0 [60; 100])
                                 note_on_60_100 [0; 100; 60; 0x90]
                                 eq_refl eq_refl)).
Defined.

Lemma byte_cases (s : Z) :
  is_byte s = true -> exists n : nat, (n < 256)%nat /\ s = Z.of_nat n.
Proof.
  unfold is_byte. intros H. apply andb_prop in H as [H0 H1].
  apply Z.leb_le in H0. apply Z.leb_le in H1.
  exists (Z.to_nat s). split; lia.
Qed.

(** Every status byte of a three-byte message, with two data bytes, is the
    byte form of a three-byte event. *)
Lemma three_byte_status_message (s d1 d2 : Z) :
  three_byte_status s = true ->
  is_data d1 = true -> is_data d2 = true ->
  exists e, three_byte e = true /\ bytes e = [s; d1; d2].
Proof.
  intros Hs Hd1 Hd2.
  assert (Hb : is_byte s = true).
  { unfold three_byte_status in Hs. now apply andb_prop in Hs as [Hb _]. }
  destruct (byte_cases s Hb) as (n & Hn & ->).
  do 256 (destruct n as [|n];
          [ vm_compute in Hs;
            first
              [ discriminate Hs
              | match goal with
                | |- exists e, _ /\ bytes e = [?k; _; _] =>
                    let k' := eval vm_compute in k in
                    match eval vm_compute in (get_spec k') with
                    | Some ?sp =>
                        exists (build_message sp [k'; d1; d2])
                    end
                end;
                (split;
                 [ unfold three_byte; simpl; rewrite Hd1, Hd2; reflexivity
                 | reflexivity ]) ]
          | ]).
  lia.
Qed.

(** X3.  Decoding a payload [x, d2, d1, s] whose status byte [s] opens a
    three-byte message, and encoding the event again, gives the payload
    back with its first byte, the port id, replaced by 0. *)
Theorem encode_decode_payload (x s d1 d2 : Z) :
  is_byte x = true ->
  three_byte_status s = true ->
  is_data d1 = true -> is_data d2 = true ->
  rbind (decode [x; d2; d1; s])
        (fun r => match r with
                  | Some e => encode e
                  | None => Raise ValueError
                  end)
  = Ok [0; d2; d1; s].
Proof.
  intros Hx Hs Hd1 Hd2.
  destruct (three_byte_status_message s d1 d2 Hs Hd1 Hd2) as (e & He & Hb).
  assert (D : decode ([x] ++ rev (bytes e)) = Ok (Some e)).
  { apply decode_suffix; [exact He|]. simpl. now rewrite Hx. }
  rewrite Hb in D. simpl in D. rewrite D. simpl.
  now apply encode_three.
Qed.

Lemma encode_decode_payload_witness :
  rbind (decode [7; 100; 60; 0x90])
        (fun r => match r with
                  | Some e => encode e
                  | None => Raise ValueError
                  end)
  = Ok [0; 100; 60; 0x90].
Proof.
  exact (encode_decode_payload 7 0x90 60 100 eq_refl eq_refl eq_refl eq_refl).
Defined.

Lemma feed_data_only (bs : list Z) :
  forallb is_data bs = true -> feed new_parser bs = Ok new_parser.
Proof.
  induction bs as [|b bs IH]; simpl; [reflexivity|].
  intros H. apply andb_prop in H as [Hb Hbs].
  rewrite (feed_byte_data _ _ Hb). simpl. now apply IH.
Qed.

(** X4.  A payload made of data bytes only (no byte from 0x80 up) holds no
    message: decode returns None, whatever the length of the payload. *)
Theorem decode_data_only (p : list Z) :
  forallb is_data p = true -> decode p = Ok None.
Proof.
  intros Hp. unfold decode, message_from_oscmidipayload, parse.
  rewrite feed_data_only; [reflexivity|].
  apply forallb_firstn. now apply forallb_rev.
Qed.

Lemma decode_data_only_witness :
  decode [0; 100; 60; 16] = Ok None.
Proof.
  exact (decode_data_only [0; 100; 60; 16] eq_refl).
Defined.

(** X5.  Among the well-formed messages, encode takes those of type
    note_off, note_on, polytouch, control_change, pitchwheel and songpos,
    and fails on its assertion for every other type (program_change,
    aftertouch, quarter_frame, song_select and the one-byte messages). *)
Theorem encode_by_type (e : Message) :
  well_formed e = true ->
  ((exists payload, encode e = Ok payload)
   <-> In (type e) [note_off; note_on; polytouch; control_change;
                    pitchwheel; songpos])
  /\ (~ In (type e) [note_off; note_on; polytouch; control_change;
                     pitchwheel; songpos]
      -> encode e = Raise AssertionError).
Proof.
  destruct e as [t c ds]. unfold well_formed, encode,
    message_to_oscmidipayload, bytes. simpl.
  destruct t; simpl; try discriminate;
    destruct ds as [|d1 [|d2 [|d3 ds]]]; simpl; try discriminate;
    intros _; split;
    try (split; [intros _; simpl; tauto | intros _; eexists; reflexivity]);
    try (split; [intros [p Hp]; discriminate Hp
                | simpl; intros H;
                  repeat (destruct H as [H|H]; try discriminate H);
                  contradiction]);
    try (intros H; exfalso; apply H; simpl; tauto);
    try (intros _; reflexivity).
Qed.

Lemma encode_by_type_witness :
  encode (mkMessage program_change 3 [5]) = Raise AssertionError
  /\ exists payload, encode (mkMessage pitchwheel 2 [0; 64]) = Ok payload.
Proof.
  split.
  - apply (proj2 (encode_by_type (mkMessage program_change 3 [5]) eq_refl)).
    simpl. intros H.
    repeat (destruct H as [H|H]; try discriminate H). contradiction.
  - apply (proj1 (encode_by_type (mkMessage pitchwheel 2 [0; 64]) eq_refl)).
    simpl. tauto.
Defined.

End CodecMore.

(** ** The callbacks *)

Section RelayMore.
Import Mido.

Lemma str_inj (a b : Z) : str a = str b -> a = b.
Proof.
  unfold str. intros H.
  assert (N : forall n : Z,
             Z.to_int n <> Decimal.Pos Decimal.Nil
             /\ Z.to_int n <> Decimal.Neg Decimal.Nil).
  { intros [|p|p]; simpl; split; try discriminate;
      intros E; injection E as E;
      exact (DecimalPos.Unsigned.to_uint_nonnil p E). }
  pose proof (NilZero.isi (Z.to_int a) (proj1 (N a)) (proj2 (N a))) as Ia.
  pose proof (NilZero.isi (Z.to_int b) (proj1 (N b)) (proj2 (N b))) as Ib.
  rewrite H in Ia. rewrite Ia in Ib. injection Ib as Ib.
  now apply DecimalZ.to_int_inj.
Qed.

Lemma three_byte_parts (m : Message) :
  three_byte m = true ->
  type m <> clock
  /\ exists s d1 d2,
       bytes m = [s; d1; d2] /\ is_data d1 = true /\ is_data d2 = true.
Proof.
  destruct m as [t c ds]. unfold three_byte, bytes. simpl.
  destruct t; simpl; try discriminate;
    destruct ds as [|d1 [|d2 [|d3 ds]]];
    rewrite ?andb_false_r; try discriminate;
    intros H; apply andb_prop in H as [_ Hd];
    apply andb_prop in Hd as [Hd1 Hd2];
    (split; [discriminate | do 3 eexists; split; [reflexivity | now split]]).
Qed.

(** What the outbound callback does on an event that is not a clock and
    has the bytes [s], [d1], [d2] and possibly more. *)
Lemma callback_on_midi_run (peer : Liblo.Address) (e : Message)
      (s d1 d2 : Z) (rest : list Z)
      (sent : list (Liblo.Address * Liblo.Message)) :
  type e <> clock ->
  bytes e = s :: d1 :: d2 :: rest ->
  create_callback_on_midi peer e sent
  = (Ok tt,
     sent ++ [(peer,
               Liblo.mkMessage ("/midi/8/" ++ str d1)%string
                               [Liblo.arg_f (d2 # 128)%Q])]).
Proof.
  intros Ht Hb. unfold create_callback_on_midi.
  destruct (type_name (type e) =? "clock")%string eqn:E.
  - apply type_name_clock in E. contradiction.
  - rewrite Hb. reflexivity.
Qed.

(** X8.  The inbound callback calls the sink at most once, after what the
    sink had received before; it returns normally only when it was called
    for "/midi" with type tags "m" and has handed the sink the message
    decoded from the arguments. *)
Theorem callback_on_osc_sink (path types : string) (args : list Liblo.arg)
        (src : Liblo.Address) (log : list (option Message)) :
  (exists l, snd (create_callback_on_osc path args types src log) = log ++ l
             /\ (List.length l <= 1)%nat)
  /\ (fst (create_callback_on_osc path args types src log) = Ok tt ->
      path = "/midi"%string /\ types = "m"%string
      /\ exists m, message_from_oscmidipayload args = Ok (Some m)
                   /\ snd (create_callback_on_osc path args types src log)
                      = log ++ [Some m]).
Proof.
  unfold create_callback_on_osc, bind, assert, lift.
  destruct (String.eqb_spec path "/midi") as [Ep|Ep]; cbn [ret raise].
  2:{ split; [exists []; rewrite app_nil_r; split; [reflexivity|simpl; lia]|].
      simpl. discriminate. }
  destruct (String.eqb_spec types "m") as [Et|Et]; cbn [ret raise].
  2:{ split; [exists []; rewrite app_nil_r; split; [reflexivity|simpl; lia]|].
      simpl. discriminate. }
  destruct (message_from_oscmidipayload args) as [[m|]|x]; cbn [Mido.send].
  - split; [exists [Some m]; split; [reflexivity|simpl; lia]|].
    intros _. repeat split; try assumption. exists m. now split.
  - split; [exists [None]; split; [reflexivity|simpl; lia]|].
    simpl. discriminate.
  - split; [exists []; rewrite app_nil_r; split; [reflexivity|simpl; lia]|].
    simpl. discriminate.
Qed.

Lemma callback_on_osc_sink_witness :
  fst (create_callback_on_osc "/midi" [Liblo.arg_m [0; 100; 60; 0x90]] "m"
                              peer_example []) = Ok tt
  /\ exists m,
       message_from_oscmidipayload [Liblo.arg_m [0; 100; 60; 0x90]]
       = Ok (Some m)
       /\ snd (create_callback_on_osc "/midi"
                 [Liblo.arg_m [0; 100; 60; 0x90]] "m" peer_example [])
          = [] ++ [Some m].
Proof.
  split; [reflexivity|].
  exact (proj2 (proj2 (proj2 (callback_on_osc_sink
                                "/midi" "m" [Liblo.arg_m [0; 100; 60; 0x90]]
                                peer_example []) eq_refl))).
Defined.

(** X10.  For a three-byte event the outbound callback sends one message
    whose float argument lies between 0 and 127/128: the value is scaled
    into the unit interval and never reaches 1. *)
Theorem callback_on_midi_value_range (peer : Liblo.Address) (e : Message)
        (sent : list (Liblo.Address * Liblo.Message)) :
  three_byte e = true ->
  exists (d1 : Z) (q : Q),
    create_callback_on_midi peer e sent
    = (Ok tt,
       sent ++ [(peer,
                 Liblo.mkMessage ("/midi/8/" ++ str d1)%string
                                 [Liblo.arg_f q])])
    /\ 0 <= d1 < 128
    /\ (0 <= q)%Q /\ (q <= 127 # 128)%Q /\ (q < 1)%Q.
Proof.
  intros He.
  destruct (three_byte_parts e He) as (Ht & s & d1 & d2 & Hb & Hd1 & Hd2).
  exists d1, (d2 # 128)%Q. split.
  - now apply (callback_on_midi_run peer e s d1 d2 []).
  - unfold is_data in Hd1, Hd2.
    apply andb_prop in Hd1 as [A1 B1]. apply andb_prop in Hd2 as [A2 B2].
    apply Z.leb_le in A1, A2. apply Z.ltb_lt in B1, B2.
    unfold Qle, Qlt. simpl. repeat split; lia.
Qed.

Lemma callback_on_midi_value_range_witness :
  exists (d1 : Z) (q : Q),
    create_callback_on_midi peer_example
                            (mkMessage control_change 0 [7; 127]) []
    = (Ok tt,
       [(peer_example,
         Liblo.mkMessage ("/midi/8/" ++ str d1)%string [Liblo.arg_f q])])
    /\ 0 <= d1 < 128
    /\ (0 <= q)%Q /\ (q <= 127 # 128)%Q /\ (q < 1)%Q.
Proof.
  exact (callback_on_midi_value_range peer_example
           (mkMessage control_change 0 [7; 127]) [] eq_refl).
Defined.

(** X11.  What the outbound callback sends depends on data1 and data2
    alone, and tells them: two events that are not clocks give the same
    message exactly when they have the same data1 and the same data2,
    whatever their status bytes (type and channel) are. *)
Theorem callback_on_midi_data_only (peer : Liblo.Address) (e1 e2 : Message)
        (s1 a1 b1 s2 a2 b2 : Z) (r1 r2 : list Z)
        (sent : list (Liblo.Address * Liblo.Message)) :
  type e1 <> clock -> type e2 <> clock ->
  bytes e1 = s1 :: a1 :: b1 :: r1 ->
  bytes e2 = s2 :: a2 :: b2 :: r2 ->
  (create_callback_on_midi peer e1 sent = create_callback_on_midi peer e2 sent
   <-> a1 = a2 /\ b1 = b2).
Proof.
  intros T1 T2 B1 B2.
  rewrite (callback_on_midi_run peer e1 s1 a1 b1 r1 sent T1 B1).
  rewrite (callback_on_midi_run peer e2 s2 a2 b2 r2 sent T2 B2).
  split.
  - intros H. injection H as H. apply app_inv_head in H.
    injection H as Hp Hq. split; [|exact Hq].
    now apply str_inj.
  - intros [-> ->]. reflexivity.
Qed.

Lemma callback_on_midi_data_only_witness :
  create_callback_on_midi peer_example (mkMessage note_on 0 [60; 100]) []
  = create_callback_on_midi peer_example
                            (mkMessage control_change 5 [60; 100]) [].
Proof.
  assert (T1 : type (mkMessage note_on 0 [60; 100]) <> clock)
    by discriminate.
  assert (T2 : type (mkMessage control_change 5 [60; 100]) <> clock)
    by discriminate.
  exact (proj2 (callback_on_midi_data_only peer_example
                  (mkMessage note_on 0 [60; 100])
                  (mkMessage control_change 5 [60; 100])
                  0x90 60 100 0xb5 60 100 [] [] [] T1 T2 eq_refl eq_refl)
               (conj eq_refl eq_refl)).
Defined.

(** X12.  What the outbound callback sends is not for an inbound relay:
    arriving at a bridge, the message matches no method (its path is not
    "/midi" and its type tags are "f"), so it is dropped. *)
Theorem outbound_dropped_by_inbound (peer : Liblo.Address) (e : Message)
        (s d1 d2 : Z) (rest : list Z)
        (sent : list (Liblo.Address * Liblo.Message)) :
  type e <> clock ->
  bytes e = s :: d1 :: d2 :: rest ->
  exists msg,
    create_callback_on_midi peer e sent = (Ok tt, sent ++ [(peer, msg)])
    /\ typetags (Liblo.args msg) = "f"%string
    /\ forall (ip : option string) (local_ip : Z) (src : Liblo.Address)
              (log : list (option Message)),
         inbound_relay ip local_ip (datagram_of src msg) log = (Ok tt, log).
Proof.
  intros Ht Hb. eexists. split; [|split].
  - exact (callback_on_midi_run peer e s d1 d2 rest sent Ht Hb).
  - reflexivity.
  - intros ip local_ip src log.
    unfold inbound_relay, Liblo.receive, main, datagram_of.
    cbn [server Liblo.s_methods Liblo.add_method Liblo.new_server app
         Liblo.dispatch Liblo.m_path Liblo.m_typespec Liblo.m_func
         Liblo.d_path Liblo.d_types Liblo.path Liblo.args].
    assert (E : ("/midi" =? "/midi/8/" ++ str d1)%string = false).
    { apply String.eqb_neq. simpl. discriminate. }
    rewrite E. reflexivity.
Qed.

Lemma outbound_dropped_by_inbound_witness :
  exists msg,
    create_callback_on_midi peer_example note_on_60_100 []
    = (Ok tt, [(peer_example, msg)])
    /\ typetags (Liblo.args msg) = "f"%string
    /\ forall (ip : option string) (local_ip : Z) (src : Liblo.Address)
              (log : list (option Message)),
         inbound_relay ip local_ip (datagram_of src msg) log = (Ok tt, log).
Proof.
  assert (T : type note_on_60_100 <> clock) by discriminate.
  exact (outbound_dropped_by_inbound peer_example note_on_60_100
           0x90 60 100 [] [] T eq_refl).
Defined.

(** X13.  Fed a run of events each of which is a clock or has at least
    three bytes, the outbound callback raises nothing and sends, all to
    the peer, as many messages as there are events that are not clocks. *)
Theorem midi_in_receive_count (peer : Liblo.Address) (events : list Message) :
  Forall (fun e => is_clock e = true \/ (3 <= List.length (bytes e))%nat)
         events ->
  forall sent : list (Liblo.Address * Liblo.Message),
  exists msgs : list Liblo.Message,
    midi_in_receive (create_callback_on_midi peer) events sent
    = (Ok tt, sent ++ map (pair peer) msgs)
    /\ List.length msgs
       = List.length (filter (fun e => negb (is_clock e)) events).
Proof.
  induction 1 as [|e events He _ IH]; intros sent.
  - exists []. simpl. rewrite app_nil_r. now split.
  - simpl. unfold bind.
    destruct (is_clock e) eqn:C.
    + assert (Hc : type e = clock) by now apply type_name_clock.
      unfold create_callback_on_midi at 1. unfold is_clock in C. rewrite C.
      cbn [ret]. destruct (IH sent) as (msgs & E & L).
      exists msgs. now split.
    + destruct He as [He|He]; [discriminate|].
      assert (Ht : type e <> clock).
      { intros Hc. apply type_name_clock in Hc. unfold is_clock in C.
        congruence. }
      destruct (bytes e) as [|s [|d1 [|d2 rest]]] eqn:Hb;
        simpl in He; try lia.
      rewrite (callback_on_midi_run peer e s d1 d2 rest sent Ht Hb).
      destruct (IH (sent ++ [(peer,
                 Liblo.mkMessage ("/midi/8/" ++ str d1)%string
                                 [Liblo.arg_f (d2 # 128)%Q])]))
        as (msgs & E & L).
      exists (Liblo.mkMessage ("/midi/8/" ++ str d1)%string
                              [Liblo.arg_f (d2 # 128)%Q] :: msgs).
      split.
      * rewrite E. simpl. now rewrite <- app_assoc.
      * simpl. now rewrite L.
Qed.

Lemma midi_in_receive_count_witness :
  exists msgs : list Liblo.Message,
    midi_in_receive (create_callback_on_midi peer_example)
                    [mkMessage clock 0 []; note_on_60_100;
                     mkMessage clock 0 []] []
    = (Ok tt, [] ++ map (pair peer_example) msgs)
    /\ List.length msgs = 1%nat.
Proof.
  apply (midi_in_receive_count peer_example
           [mkMessage clock 0 []; note_on_60_100; mkMessage clock 0 []]).
  apply Forall_cons; [left; reflexivity|].
  apply Forall_cons; [right; simpl; lia|].
  apply Forall_cons; [left; reflexivity|].
  apply Forall_nil.
Defined.

End RelayMore.

(** ** The start-up *)

Section StartupMore.
Import Netaddr.

Lemma str_ip_not_empty (v : Z) : str_ip v <> ""%string.
Proof.
  unfold str_ip.
  generalize (str (octet v 3)), (str (octet v 2)), (str (octet v 1)),
             (str (octet v 0)).
  intros [|c s] s2 s1 s0; discriminate.
Qed.

(** X14.  The inferred peer depends on the first two octets of the local
    address only: two hosts of the same /16 network that give no [--ip] set
    up the same bridge. *)
Theorem main_same_network (a b c d c' d' : Z) :
  0 <= c <= 255 -> 0 <= d <= 255 -> 0 <= c' <= 255 -> 0 <= d' <= 255 ->
  main None (of_octets a b c d) = main None (of_octets a b c' d').
Proof.
  intros Hc Hd Hc' Hd'. unfold main.
  rewrite (broadcast_16 a b c d Hc Hd), (broadcast_16 a b c' d' Hc' Hd').
  reflexivity.
Qed.

Lemma main_same_network_witness :
  main None (of_octets 192 168 1 17) = main None (of_octets 192 168 200 3).
Proof.
  apply (main_same_network 192 168 1 17 200 3); lia.
Defined.

(** X15.  Whatever the option and the local address, the peer that [main]
    sets up has a host that is not the empty string, the protocol UDP and
    the port 12346, which is not the port the server listens on. *)
Theorem main_peer_shape (ip : option string) (local_ip : Z) :
  Liblo.hostname (target (main ip local_ip)) <> ""%string
  /\ Liblo.hostname (target (main ip local_ip))
     = target_address (main ip local_ip)
  /\ Liblo.protocol (target (main ip local_ip)) = Liblo.UDP
  /\ Liblo.port (target (main ip local_ip)) = 12346
  /\ Liblo.port (target (main ip local_ip))
     <> Liblo.s_port (server (main ip local_ip)).
Proof.
  unfold main. cbn [target target_address server Liblo.hostname
                    Liblo.protocol Liblo.port].
  split; [|repeat split; discriminate].
  destruct ip as [s|]; [|apply str_ip_not_empty].
  destruct (String.eqb_spec s "") as [E|E]; [apply str_ip_not_empty|exact E].
Qed.

(** X16.  For every event, the callback that [main] sets on the MIDI input
    sends at most one message, after those sent before, and sends it to
    the peer that [main] resolved; when it raises, it has sent nothing. *)
Theorem main_callback_to_peer (ip : option string) (local_ip : Z)
        (e : Mido.Message)
        (sent : list (Liblo.Address * Liblo.Message)) :
  exists l,
    snd (midi_in_callback (main ip local_ip) e sent) = sent ++ l
    /\ (List.length l <= 1)%nat
    /\ Forall (fun x => fst x = target (main ip local_ip)) l
    /\ (fst (midi_in_callback (main ip local_ip) e sent) <> Ok tt -> l = []).
Proof.
  unfold main.
  cbn [midi_in_callback target].
  set (peer := Liblo.mkAddress _ _ _).
  assert (Nil : forall r : result unit,
            exists l : list (Liblo.Address * Liblo.Message),
              snd (r, sent) = sent ++ l
              /\ (List.length l <= 1)%nat
              /\ Forall (fun x => fst x = peer) l
              /\ (fst (r, sent) <> Ok tt -> l = [])).
  { intros r. exists []. simpl. rewrite app_nil_r.
    repeat split; [lia | constructor]. }
  unfold create_callback_on_midi.
  destruct (Mido.type_name (Mido.type e) =? "clock")%string;
    [apply Nil|].
  destruct (Mido.bytes e) as [|s [|d1 [|d2 rest]]];
    try apply Nil.
  eexists. split; [reflexivity|]. split; [simpl; lia|]. split.
  - constructor; [reflexivity | constructor].
  - intros H. exfalso. apply H. reflexivity.
Qed.

End StartupMore.

(** ** Instances of the properties of the relays *)

Section RelayInstances.
Import Mido.

Lemma callback_on_osc_asserts_witness :
  create_callback_on_osc "/foo" [Liblo.arg_m [0; 100; 60; 0x90]] "m"
                         peer_example []
  = (Raise AssertionError, []).
Proof.
  apply (callback_on_osc_asserts "/foo" "m" [Liblo.arg_m [0; 100; 60; 0x90]]
                                 peer_example []).
  left. discriminate.
Defined.

Lemma inbound_relay_delivers_witness :
  inbound_relay None 0
    (Liblo.mkDatagram "/midi" "m"
       [Liblo.arg_m ([0] ++ rev (bytes note_on_60_100))] peer_example) []
  = (Ok tt, [] ++ [Some note_on_60_100]).
Proof.
  exact (inbound_relay_delivers None 0 [0] note_on_60_100 peer_example []
                                eq_refl eq_refl).
Defined.

Lemma callback_on_midi_short_witness :
  create_callback_on_midi peer_example (mkMessage program_change 3 [5]) []
  = (Raise IndexError, []).
Proof.
  assert (T : type (mkMessage program_change 3 [5]) <> clock)
    by discriminate.
  apply (callback_on_midi_short peer_example (mkMessage program_change 3 [5])
                                [] T).
  simpl. lia.
Defined.

End RelayInstances.
